(** * The order lifecycle of jesse/models/Order.py

    A shallow embedding of the [Order] model: the record of its fields, the
    derived read-only views, and the lifecycle methods [queue], [resubmit],
    [cancel], [execute] and [execute_partially], written in a small
    state-and-exception monad over the order object and the ambient world
    (clock, id generator, configuration, collaborators). *)

From Stdlib Require Import Floats.PrimFloat.
From Stdlib Require Import ZArith NArith List String Bool Lia.
Import ListNotations.
Local Open Scope string_scope.
Local Open Scope list_scope.
Local Open Scope Z_scope.

(** ** Enumerations (jesse.enums) *)

(** Modelled from the spec: jesse.enums.order_statuses is not part of the
    sources at hand; the statuses are the five constants Order.py refers to,
    which are also the five states the specification enumerates. *)
Inductive order_statuses : Set :=
| ACTIVE
| CANCELED
| EXECUTED
| PARTIALLY_FILLED
| QUEUED.

(** Modelled from the spec: jesse.enums.sides, "side (buy/sell)". *)
Inductive sides : Set :=
| BUY
| SELL.

Definition order_statuses_eqb (a b : order_statuses) : bool :=
  match a, b with
  | ACTIVE, ACTIVE
  | CANCELED, CANCELED
  | EXECUTED, EXECUTED
  | PARTIALLY_FILLED, PARTIALLY_FILLED
  | QUEUED, QUEUED => true
  | _, _ => false
  end.

Lemma order_statuses_eqb_spec (a b : order_statuses) :
  reflect (a = b) (order_statuses_eqb a b).
Proof. destruct a, b; constructor; congruence. Qed.

(** ** The record *)

Definition UUID : Set := N.
Definition timestamp : Set := Z.

Record Order : Set := mkOrder {
  id : UUID;
  trade_id : option UUID;
  session_id : UUID;
  exchange_id : option string;
  vars : string;
  symbol : string;
  exchange : string;
  side : sides;
  type : string;
  reduce_only : bool;
  qty : float;
  filled_qty : float;
  price : option float;
  status : order_statuses;
  created_at : option timestamp;
  executed_at : option timestamp;
  canceled_at : option timestamp;
  submitted_via : option string
}.

(** Attribute assignment, one field at a time ([self.f = v]). *)
Definition set_id (v : UUID) (o : Order) : Order :=
  mkOrder v (trade_id o) (session_id o) (exchange_id o) (vars o) (symbol o)
    (exchange o) (side o) (type o) (reduce_only o) (qty o) (filled_qty o)
    (price o) (status o) (created_at o) (executed_at o) (canceled_at o)
    (submitted_via o).

Definition set_status (v : order_statuses) (o : Order) : Order :=
  mkOrder (id o) (trade_id o) (session_id o) (exchange_id o) (vars o) (symbol o)
    (exchange o) (side o) (type o) (reduce_only o) (qty o) (filled_qty o)
    (price o) v (created_at o) (executed_at o) (canceled_at o)
    (submitted_via o).

Definition set_created_at (v : option timestamp) (o : Order) : Order :=
  mkOrder (id o) (trade_id o) (session_id o) (exchange_id o) (vars o) (symbol o)
    (exchange o) (side o) (type o) (reduce_only o) (qty o) (filled_qty o)
    (price o) (status o) v (executed_at o) (canceled_at o)
    (submitted_via o).

Definition set_executed_at (v : option timestamp) (o : Order) : Order :=
  mkOrder (id o) (trade_id o) (session_id o) (exchange_id o) (vars o) (symbol o)
    (exchange o) (side o) (type o) (reduce_only o) (qty o) (filled_qty o)
    (price o) (status o) (created_at o) v (canceled_at o)
    (submitted_via o).

Definition set_canceled_at (v : option timestamp) (o : Order) : Order :=
  mkOrder (id o) (trade_id o) (session_id o) (exchange_id o) (vars o) (symbol o)
    (exchange o) (side o) (type o) (reduce_only o) (qty o) (filled_qty o)
    (price o) (status o) (created_at o) (executed_at o) v
    (submitted_via o).

(** ** Messages and collaborators *)

(** The text handed to the logger and the notifier, kept structured: the
    heading, the interpolated fields, and the price that the source appends
    (rounded to two decimals) when it is truthy. *)
Inductive Txt : Set :=
| order_txt (head : string) (sym typ : string) (sd : sides) (q : float)
    (price2 : option float)
| partially_filled_txt (sym typ : string) (sd : sides)
    (filled remaining : float) (p : option float).

(** A position found by [selectors.get_position]; only its presence matters
    to the order. *)
Inductive Position : Set := PositionOf (exch sym : string).

(** Calls made on the collaborators, each with the state of the order at the
    moment of the call. *)
Inductive Event : Set :=
| logger_info (txt : Txt)
| notify (txt : Txt)
| on_order_submission (exch : string) (o : Order)
| on_order_cancellation (exch : string) (o : Order)
| on_order_execution (exch : string) (o : Order)
| add_executed_order (o : Order)
| _on_executed_order (p : Position) (o : Order).

(** The ambient state the methods read and write. [trace] lists the calls
    made so far, oldest first. *)
Record World : Type := mkWorld {
  time : timestamp;
  uuids_issued : list UUID;
  live : bool;
  debug_mode : string -> bool;
  notifications_events : string -> bool;
  positions : string -> string -> option Position;
  trace : list Event
}.

Definition set_trace (t : list Event) (w : World) : World :=
  mkWorld (time w) (uuids_issued w) (live w) (debug_mode w)
    (notifications_events w) (positions w) t.

Definition set_uuids_issued (l : list UUID) (w : World) : World :=
  mkWorld (time w) l (live w) (debug_mode w)
    (notifications_events w) (positions w) (trace w).

(** ** The monad: state (the order and the world) with exceptions.

    A raised exception keeps the state reached so far, as in Python. *)

Inductive Exn : Set :=
| NotSupportedError (current : order_statuses)
| TypeError.

Definition Sys : Type := Order * World.
Definition M (A : Type) : Type := Sys -> (Exn + A) * Sys.

Definition ret {A} (a : A) : M A := fun s => (inr a, s).
Definition raise {A} (e : Exn) : M A := fun s => (inl e, s).
Definition bind {A B} (m : M A) (k : A -> M B) : M B :=
  fun s => match m s with
           | (inr a, s') => k a s'
           | (inl e, s') => (inl e, s')
           end.

Declare Scope m_scope.
Delimit Scope m_scope with M.
Notation "x <- c1 ;; c2" := (bind c1 (fun x => c2))
  (at level 61, c1 at next level, right associativity) : m_scope.
Notation "c1 ;; c2" := (bind c1 (fun _ => c2))
  (at level 61, right associativity) : m_scope.
Local Open Scope m_scope.

Definition when (b : bool) (m : M unit) : M unit :=
  if b then m else ret tt.

Definition get_self : M Order := fun s => (inr (fst s), s).
Definition get_world : M World := fun s => (inr (snd s), s).
Definition modify_self (f : Order -> Order) : M unit :=
  fun s => (inr tt, (f (fst s), snd s)).
Definition modify_world (f : World -> World) : M unit :=
  fun s => (inr tt, (fst s, f (snd s))).

(** A call on a collaborator is recorded at the end of the trace. *)
Definition call (e : Event) : M unit :=
  modify_world (fun w => set_trace (trace w ++ [e]) w).

(** Projections of a run. *)
Definition result_of {A} (r : (Exn + A) * Sys) : Exn + A := fst r.
Definition self_of {A} (r : (Exn + A) * Sys) : Order := fst (snd r).
Definition world_of {A} (r : (Exn + A) * Sys) : World := snd (snd r).

(** ** Helpers (jesse.helpers, jesse.config, jesse.services.selectors) *)

Module jh.

(** Modelled from the spec: jh.prepare_qty, the "prepare quantity for side"
    helper: it takes the absolute value of the quantity and re-applies the
    sign appropriate to the side (negative for sell). *)
Definition prepare_qty (q : float) (sd : sides) : float :=
  match sd with
  | SELL => PrimFloat.opp (PrimFloat.abs q)
  | BUY => PrimFloat.abs q
  end.

(** Modelled from the spec: ClockPort [now() -> timestamp]. *)
Definition now_to_timestamp : M timestamp :=
  w <- get_world ;; ret (time w).

(** An id that differs from every id in [l]. *)
Definition fresh_uuid (l : list UUID) : UUID :=
  N.succ (fold_right N.max 0%N l).

(** Modelled from the spec: IdentityPort [newId() -> unique id]: the id
    returned differs from all the ids issued so far, and counts as issued
    from then on. *)
Definition generate_unique_id : M UUID :=
  w <- get_world ;;
  let u := fresh_uuid (uuids_issued w) in
  modify_world (set_uuids_issued (u :: uuids_issued w)) ;;
  ret u.

Definition is_live : M bool :=
  w <- get_world ;; ret (live w).

Definition is_debuggable (item : string) : M bool :=
  w <- get_world ;; ret (debug_mode w item).

End jh.

(** [config['env']['notifications']['events'][name]] *)
Definition config_notifications_events (name : string) : M bool :=
  w <- get_world ;; ret (notifications_events w name).

Module selectors.

Definition get_position (exch sym : string) : M (option Position) :=
  w <- get_world ;; ret (positions w exch sym).

End selectors.

(** ** Derived views of the record *)

Definition is_canceled (o : Order) : bool := order_statuses_eqb (status o) CANCELED.
Definition is_active (o : Order) : bool := order_statuses_eqb (status o) ACTIVE.
Definition is_partially_filled (o : Order) : bool :=
  order_statuses_eqb (status o) PARTIALLY_FILLED.
Definition is_cancellable (o : Order) : bool := is_active o || is_partially_filled o.
Definition is_queued (o : Order) : bool := order_statuses_eqb (status o) QUEUED.
Definition is_new (o : Order) : bool := is_active o.
Definition is_executed (o : Order) : bool := order_statuses_eqb (status o) EXECUTED.
Definition is_filled (o : Order) : bool := is_executed o.

(** [selectors.get_position(self.exchange, self.symbol)] *)
Definition position : M (option Position) :=
  self <- get_self ;;
  selectors.get_position (exchange self) (symbol self).

(** [abs(self.qty) * self.price]; with [price] None the product is a
    TypeError. *)
Definition value (o : Order) : Exn + float :=
  match price o with
  | Some p => inr (PrimFloat.mul (PrimFloat.abs (qty o)) p)
  | None => inl TypeError
  end.

Definition remaining_qty (o : Order) : float :=
  jh.prepare_qty
    (PrimFloat.sub (PrimFloat.abs (qty o)) (PrimFloat.abs (filled_qty o)))
    (side o).

(** Truthiness of [self.price]: neither None nor zero. *)
Definition price_if_truthy (o : Order) : option float :=
  match price o with
  | Some p => if PrimFloat.eqb p PrimFloat.zero then None else Some p
  | None => None
  end.

Definition is_not_None {A} (x : option A) : bool :=
  match x with Some _ => true | None => false end.

(** ** The methods *)

Definition submission_txt (o : Order) : Txt :=
  order_txt (if is_queued o then "QUEUED order" else "SUBMITTED order")
    (symbol o) (type o) (side o) (qty o) (price_if_truthy o).

Definition notify_submission : M unit :=
  enabled <- config_notifications_events "submitted_orders" ;;
  self <- get_self ;;
  when (enabled && (is_active self || is_queued self))
    (call (notify (submission_txt self))).

(** The part of the constructor that follows the assignment of the
    attributes: the record in the state is the one the caller's attributes
    describe. *)
Definition __init__ : M unit :=
  self <- get_self ;;
  when (negb (is_not_None (created_at self)))
    (now <- jh.now_to_timestamp ;;
     modify_self (set_created_at (Some now))) ;;
  is_live <- jh.is_live ;;
  when is_live notify_submission ;;
  dbg <- jh.is_debuggable "order_submission" ;;
  self <- get_self ;;
  when (dbg && (is_active self || is_queued self))
    (call (logger_info (submission_txt self))) ;;
  self <- get_self ;;
  call (on_order_submission (exchange self) self).

Definition queue : M unit :=
  modify_self (set_status QUEUED) ;;
  modify_self (set_canceled_at None) ;;
  dbg <- jh.is_debuggable "order_submission" ;;
  self <- get_self ;;
  when dbg
    (when (is_not_None (price_if_truthy self))
       (call (logger_info
                (order_txt "QUEUED order" (symbol self) (type self) (side self)
                   (qty self) (price_if_truthy self))))) ;;
  notify_submission.

Definition resubmit : M unit :=
  self <- get_self ;;
  if negb (is_queued self) then raise (NotSupportedError (status self))
  else
    new_id <- jh.generate_unique_id ;;
    modify_self (set_id new_id) ;;
    modify_self (set_status ACTIVE) ;;
    modify_self (set_canceled_at None) ;;
    dbg <- jh.is_debuggable "order_submission" ;;
    self <- get_self ;;
    when dbg
      (when (is_not_None (price_if_truthy self))
         (call (logger_info
                  (order_txt "SUBMITTED order" (symbol self) (type self)
                     (side self) (qty self) (price_if_truthy self))))) ;;
    notify_submission.

Definition cancel (silent : bool) (source : string) : M unit :=
  self <- get_self ;;
  if is_canceled self || is_executed self then ret tt
  else if String.eqb source "stream" && is_queued self then ret tt
  else
    now <- jh.now_to_timestamp ;;
    modify_self (set_canceled_at (Some now)) ;;
    modify_self (set_status CANCELED) ;;
    when (negb silent)
      (self <- get_self ;;
       let txt := order_txt "CANCELED order" (symbol self) (type self)
                    (side self) (qty self) (price_if_truthy self) in
       dbg <- jh.is_debuggable "order_cancellation" ;;
       when dbg (call (logger_info txt)) ;;
       is_live <- jh.is_live ;;
       when is_live
         (enabled <- config_notifications_events "cancelled_orders" ;;
          when enabled (call (notify txt)))) ;;
    self <- get_self ;;
    call (on_order_cancellation (exchange self) self).

Definition execute (silent : bool) : M unit :=
  self <- get_self ;;
  if is_canceled self || is_executed self then ret tt
  else
    now <- jh.now_to_timestamp ;;
    modify_self (set_executed_at (Some now)) ;;
    modify_self (set_status EXECUTED) ;;
    when (negb silent)
      (self <- get_self ;;
       let txt := order_txt "EXECUTED order" (symbol self) (type self)
                    (side self) (qty self) (price_if_truthy self) in
       dbg <- jh.is_debuggable "order_execution" ;;
       when dbg (call (logger_info txt)) ;;
       is_live <- jh.is_live ;;
       when is_live
         (enabled <- config_notifications_events "executed_orders" ;;
          when enabled (call (notify txt)))) ;;
    self <- get_self ;;
    call (add_executed_order self) ;;
    call (on_order_execution (exchange self) self) ;;
    p <- selectors.get_position (exchange self) (symbol self) ;;
    match p with
    | Some pos => call (_on_executed_order pos self)
    | None => ret tt
    end.

Definition execute_partially (silent : bool) : M unit :=
  now <- jh.now_to_timestamp ;;
  modify_self (set_executed_at (Some now)) ;;
  modify_self (set_status PARTIALLY_FILLED) ;;
  when (negb silent)
    (self <- get_self ;;
     let txt := partially_filled_txt (symbol self) (type self) (side self)
                  (filled_qty self) (remaining_qty self) (price self) in
     dbg <- jh.is_debuggable "order_execution" ;;
     when dbg (call (logger_info txt)) ;;
     is_live <- jh.is_live ;;
     when is_live
       (enabled <- config_notifications_events "executed_orders" ;;
        when enabled (call (notify txt)))) ;;
  self <- get_self ;;
  call (add_executed_order self) ;;
  p <- selectors.get_position (exchange self) (symbol self) ;;
  match p with
  | Some pos => call (_on_executed_order pos self)
  | None => ret tt
  end.

(** The two statuses the specification calls terminal. *)
Definition terminal (s : order_statuses) : bool :=
  match s with
  | EXECUTED | CANCELED => true
  | _ => false
  end.

(** ** Lifecycle operations as data, and the orders they can reach *)

Inductive operation : Set :=
| Queue
| Resubmit
| Cancel (silent : bool) (source : string)
| Execute (silent : bool)
| ExecutePartially (silent : bool).

Definition perform (op : operation) : M unit :=
  match op with
  | Queue => queue
  | Resubmit => resubmit
  | Cancel silent source => cancel silent source
  | Execute silent => execute silent
  | ExecutePartially silent => execute_partially silent
  end.

(** A sequence of operations run on one order, the world threaded through;
    an exception raised by one call is left to the caller and the next call
    goes on from the state reached. *)
Fixpoint run_ops (ops : list operation) (s : Sys) : Sys :=
  match ops with
  | [] => s
  | op :: ops' => run_ops ops' (snd (perform op s))
  end.

(** The orders a given order can become: any number of operations, each in
    whatever world it finds at the time of the call. *)
Inductive reachable (o0 : Order) : Order -> Prop :=
| reach_start : reachable o0 o0
| reach_step (o : Order) (w : World) (op : operation) :
    reachable o0 o -> reachable o0 (self_of (perform op (o, w))).

(** The same, with [execute_partially] only ever called on an order that is
    neither Executed nor Canceled. *)
Inductive reachable_guarded (o0 : Order) : Order -> Prop :=
| greach_start : reachable_guarded o0 o0
| greach_step (o : Order) (w : World) (op : operation) :
    reachable_guarded o0 o ->
    (forall silent, op = ExecutePartially silent -> terminal (status o) = false) ->
    reachable_guarded o0 (self_of (perform op (o, w))).

(** A record as the submitting caller constructs it: active or queued, with
    neither terminal timestamp set. *)
Definition fresh (o : Order) : Prop :=
  (status o = ACTIVE \/ status o = QUEUED) /\
  executed_at o = None /\ canceled_at o = None.

(** The calls on the ledger, accounting and position collaborators among a
    list of calls (logging and notification left out). *)
Definition is_port_call (e : Event) : bool :=
  match e with
  | logger_info _ | notify _ => false
  | _ => true
  end.

Definition port_calls (l : list Event) : list Event := filter is_port_call l.

(** The logging and notification calls of a transition that is not silent:
    the logger when the item is debuggable, the notifier in live mode when
    the event is enabled. *)
Definition notes (silent : bool) (item event : string) (txt : Txt) (w : World)
  : list Event :=
  if silent then []
  else (if debug_mode w item then [logger_info txt] else []) ++
       (if live w
        then if notifications_events w event then [notify txt] else []
        else []).

(** The call on the position of the order's instrument, when there is one. *)
Definition position_call (w : World) (o : Order) : list Event :=
  match positions w (exchange o) (symbol o) with
  | Some p => [_on_executed_order p o]
  | None => []
  end.

(** ** Relations between the status and the two terminal timestamps *)

(** At most one of the two timestamps is set, and each is set exactly when
    the status matches. *)
Definition timestamps_match_status (o : Order) : Prop :=
  (executed_at o = None \/ canceled_at o = None) /\
  (executed_at o <> None <-> status o = EXECUTED \/ status o = PARTIALLY_FILLED) /\
  (canceled_at o <> None <-> status o = CANCELED).

(** The timestamp of a status is set while the order has that status, and
    no cancellation time is kept while it is active or queued. *)
Definition timestamps_cover_status (o : Order) : Prop :=
  (status o = EXECUTED \/ status o = PARTIALLY_FILLED -> executed_at o <> None) /\
  (status o = CANCELED -> canceled_at o <> None) /\
  (status o = ACTIVE \/ status o = QUEUED -> canceled_at o = None).

(** ** The dictionary view *)

(** The values [to_dict] holds. *)
Inductive PyValue : Set :=
| PyNone
| PyUUID (u : UUID)
| PyStr (s : string)
| PySide (sd : sides)
| PyStatus (st : order_statuses)
| PyFloat (f : float)
| PyInt (z : Z).

Definition py_option {A} (f : A -> PyValue) (x : option A) : PyValue :=
  match x with
  | Some a => f a
  | None => PyNone
  end.

(** The dictionary as its items, in the order the source writes them. *)
Definition to_dict (o : Order) : list (string * PyValue) :=
  [("id", PyUUID (id o));
   ("session_id", PyUUID (session_id o));
   ("exchange_id", py_option PyStr (exchange_id o));
   ("symbol", PyStr (symbol o));
   ("side", PySide (side o));
   ("type", PyStr (type o));
   ("qty", PyFloat (qty o));
   ("filled_qty", PyFloat (filled_qty o));
   ("price", py_option PyFloat (price o));
   ("status", PyStatus (status o));
   ("created_at", py_option PyInt (created_at o));
   ("canceled_at", py_option PyInt (canceled_at o));
   ("executed_at", py_option PyInt (executed_at o))].

(** ** The status as a finite-state machine *)

(** The status an operation leaves, from the status it finds. *)
Definition status_machine (op : operation) (st : order_statuses)
  : order_statuses :=
  match op with
  | Queue => QUEUED
  | Resubmit => match st with QUEUED => ACTIVE | _ => st end
  | Cancel _ source =>
      match st with
      | CANCELED | EXECUTED => st
      | QUEUED => if String.eqb source "stream" then QUEUED else CANCELED
      | _ => CANCELED
      end
  | Execute _ =>
      match st with
      | CANCELED | EXECUTED => st
      | _ => EXECUTED
      end
  | ExecutePartially _ => PARTIALLY_FILLED
  end.

(** The record an operation leaves, as a function of the record it finds,
    the clock and the ids issued so far. *)
Definition record_after (op : operation) (now : timestamp) (ids : list UUID)
    (o : Order) : Order :=
  match op with
  | Queue => set_canceled_at None (set_status QUEUED o)
  | Resubmit =>
      if is_queued o
      then set_canceled_at None
             (set_status ACTIVE (set_id (jh.fresh_uuid ids) o))
      else o
  | Cancel _ source =>
      if terminal (status o) || (String.eqb source "stream" && is_queued o)
      then o
      else set_status CANCELED (set_canceled_at (Some now) o)
  | Execute _ =>
      if terminal (status o) then o
      else set_status EXECUTED (set_executed_at (Some now) o)
  | ExecutePartially _ =>
      set_status PARTIALLY_FILLED (set_executed_at (Some now) o)
  end.

(** An operation with its [silent] argument replaced. *)
Definition with_silent (b : bool) (op : operation) : operation :=
  match op with
  | Cancel _ source => Cancel b source
  | Execute _ => Execute b
  | ExecutePartially _ => ExecutePartially b
  | Queue | Resubmit => op
  end.

(** The fields no lifecycle method assigns. *)
Definition same_terms (o o' : Order) : Prop :=
  trade_id o' = trade_id o /\ session_id o' = session_id o /\
  exchange_id o' = exchange_id o /\ vars o' = vars o /\
  symbol o' = symbol o /\ exchange o' = exchange o /\ side o' = side o /\
  type o' = type o /\ reduce_only o' = reduce_only o /\ qty o' = qty o /\
  filled_qty o' = filled_qty o /\ price o' = price o /\
  created_at o' = created_at o /\ submitted_via o' = submitted_via o.


(** ** Sample data *)

Definition quiet_world (now : timestamp) : World :=
  mkWorld now [7%N] false (fun _ => false) (fun _ => false)
    (fun _ _ => None) [].

Definition loud_world (now : timestamp) : World :=
  mkWorld now [7%N] true (fun _ => true) (fun _ => true)
    (fun e s => Some (PositionOf e s)) [].

Definition sample_order (st : order_statuses) : Order :=
  mkOrder 7%N None 1%N None "{}" "BTC-USDT" "Binance" SELL "LIMIT" false
    (-2)%float 0%float (Some 100%float) st (Some 1000) None None None.

(** * Properties *)

(** ** What each method does to the record *)

Ltac simpl_state :=
  cbn [fst snd negb time uuids_issued live debug_mode notifications_events
       positions trace set_trace set_uuids_issued] in *.

Ltac unfold_methods :=
  unfold perform, queue, resubmit, cancel, execute, execute_partially,
    notify_submission, jh.now_to_timestamp, jh.generate_unique_id, jh.is_live,
    jh.is_debuggable, config_notifications_events, selectors.get_position,
    when, call, bind, ret, raise, get_self, get_world, modify_self,
    modify_world, result_of, self_of, world_of in *;
  simpl_state.

Ltac split_branches :=
  repeat match goal with
    | |- context [if negb ?b then _ else _] => destruct b eqn:?; simpl_state
    | |- context [if ?b then _ else _] => destruct b eqn:?; simpl_state
    | |- context [match ?x with Some _ => _ | None => _ end] =>
        destruct x eqn:?; simpl_state
    end.

Ltac run_method := unfold_methods; split_branches; try reflexivity.

Lemma terminal_guard (o : Order) :
  is_canceled o || is_executed o = terminal (status o).
Proof. unfold is_canceled, is_executed; destruct (status o); reflexivity. Qed.

Lemma is_queued_iff (o : Order) : is_queued o = true <-> status o = QUEUED.
Proof. unfold is_queued; destruct (status o); cbn; split; congruence. Qed.

Lemma queue_self (o : Order) (w : World) :
  self_of (queue (o, w)) = set_canceled_at None (set_status QUEUED o).
Proof. run_method. Qed.

Lemma queue_result (s : Sys) : result_of (queue s) = inr tt.
Proof. run_method. Qed.

Lemma resubmit_not_queued (o : Order) (w : World) :
  status o <> QUEUED ->
  resubmit (o, w) = (inl (NotSupportedError (status o)), (o, w)).
Proof.
  intros Hst. unfold resubmit, bind, get_self, raise; cbn [fst snd].
  destruct (is_queued o) eqn:Hq; [|reflexivity].
  apply is_queued_iff in Hq. contradiction.
Qed.

Lemma resubmit_queued (o : Order) (w : World) :
  status o = QUEUED ->
  result_of (resubmit (o, w)) = inr tt /\
  self_of (resubmit (o, w)) =
    set_canceled_at None
      (set_status ACTIVE (set_id (jh.fresh_uuid (uuids_issued w)) o)).
Proof.
  intros Hst. apply is_queued_iff in Hst.
  unfold_methods. rewrite Hst. cbn [negb]. split; split_branches; reflexivity.
Qed.

Lemma cancel_noop_terminal (silent : bool) (source : string) (o : Order) (w : World) :
  terminal (status o) = true ->
  cancel silent source (o, w) = (inr tt, (o, w)).
Proof.
  intros Ht. unfold cancel, bind, get_self, ret; cbn [fst snd].
  rewrite terminal_guard, Ht. reflexivity.
Qed.

Lemma cancel_noop_stream_queued (silent : bool) (o : Order) (w : World) :
  status o = QUEUED ->
  cancel silent "stream" (o, w) = (inr tt, (o, w)).
Proof.
  intros Hst. unfold cancel, bind, get_self, ret; cbn [fst snd].
  rewrite terminal_guard, Hst. apply is_queued_iff in Hst. rewrite Hst.
  reflexivity.
Qed.

Lemma cancel_self (silent : bool) (source : string) (o : Order) (w : World) :
  terminal (status o) = false ->
  String.eqb source "stream" && is_queued o = false ->
  result_of (cancel silent source (o, w)) = inr tt /\
  self_of (cancel silent source (o, w)) =
    set_status CANCELED (set_canceled_at (Some (time w)) o).
Proof.
  intros Ht Hg. rewrite <- terminal_guard in Ht.
  unfold_methods. rewrite Ht, Hg. split; split_branches; reflexivity.
Qed.

Lemma execute_noop_terminal (silent : bool) (o : Order) (w : World) :
  terminal (status o) = true ->
  execute silent (o, w) = (inr tt, (o, w)).
Proof.
  intros Ht. unfold execute, bind, get_self, ret; cbn [fst snd].
  rewrite terminal_guard, Ht. reflexivity.
Qed.

Lemma execute_self (silent : bool) (o : Order) (w : World) :
  terminal (status o) = false ->
  result_of (execute silent (o, w)) = inr tt /\
  self_of (execute silent (o, w)) =
    set_status EXECUTED (set_executed_at (Some (time w)) o).
Proof.
  intros Ht. rewrite <- terminal_guard in Ht.
  unfold_methods. rewrite Ht. split; split_branches; reflexivity.
Qed.

Lemma execute_partially_self (silent : bool) (o : Order) (w : World) :
  result_of (execute_partially silent (o, w)) = inr tt /\
  self_of (execute_partially silent (o, w)) =
    set_status PARTIALLY_FILLED (set_executed_at (Some (time w)) o).
Proof. split; run_method. Qed.

(** ** The calls each method makes *)

Lemma port_calls_notes silent item event txt w :
  port_calls (notes silent item event txt w) = [].
Proof.
  unfold notes.
  destruct silent, (debug_mode w item), (live w), (notifications_events w event);
    reflexivity.
Qed.

Lemma port_calls_app (l1 l2 : list Event) :
  port_calls (l1 ++ l2) = port_calls l1 ++ port_calls l2.
Proof. apply filter_app. Qed.

Ltac trace_eq :=
  unfold notes, position_call; split_branches;
  cbn [app]; rewrite <- ?app_assoc; reflexivity.

Lemma cancel_trace (silent : bool) (source : string) (o : Order) (w : World) :
  terminal (status o) = false ->
  String.eqb source "stream" && is_queued o = false ->
  let o' := set_status CANCELED (set_canceled_at (Some (time w)) o) in
  trace (world_of (cancel silent source (o, w))) =
    trace w ++
    notes silent "order_cancellation" "cancelled_orders"
      (order_txt "CANCELED order" (symbol o) (type o) (side o) (qty o)
         (price_if_truthy o)) w ++
    [on_order_cancellation (exchange o) o'].
Proof.
  intros Ht Hg o'. subst o'. rewrite <- terminal_guard in Ht.
  unfold_methods. rewrite Ht, Hg. trace_eq.
Qed.

Lemma execute_trace (silent : bool) (o : Order) (w : World) :
  terminal (status o) = false ->
  let o' := set_status EXECUTED (set_executed_at (Some (time w)) o) in
  trace (world_of (execute silent (o, w))) =
    trace w ++
    notes silent "order_execution" "executed_orders"
      (order_txt "EXECUTED order" (symbol o) (type o) (side o) (qty o)
         (price_if_truthy o)) w ++
    [add_executed_order o'; on_order_execution (exchange o) o'] ++
    position_call w o'.
Proof.
  intros Ht o'. subst o'. rewrite <- terminal_guard in Ht.
  unfold_methods. rewrite Ht. trace_eq.
Qed.

Lemma execute_partially_trace (silent : bool) (o : Order) (w : World) :
  let o' := set_status PARTIALLY_FILLED (set_executed_at (Some (time w)) o) in
  trace (world_of (execute_partially silent (o, w))) =
    trace w ++
    notes silent "order_execution" "executed_orders"
      (partially_filled_txt (symbol o) (type o) (side o) (filled_qty o)
         (remaining_qty o) (price o)) w ++
    [add_executed_order o'] ++ position_call w o'.
Proof. intros o'. subst o'. unfold_methods. trace_eq. Qed.

(** ** Reachable orders *)

Lemma run_ops_reachable (ops : list operation) :
  forall (o0 o : Order) (w : World),
    reachable o0 o -> reachable o0 (fst (run_ops ops (o, w))).
Proof.
  induction ops as [|op ops IH]; intros o0 o w Hr; cbn [run_ops fst].
  - exact Hr.
  - destruct (snd (perform op (o, w))) as [o' w'] eqn:E.
    apply IH.
    replace o' with (self_of (perform op (o, w)))
      by (unfold self_of; rewrite E; reflexivity).
    now apply reach_step.
Qed.

Lemma perform_keeps_cover (op : operation) (o : Order) (w : World) :
  timestamps_cover_status o ->
  timestamps_cover_status (self_of (perform op (o, w))).
Proof.
  intros (He & Hc & Ha).
  destruct op as [| |silent source|silent|silent]; cbn [perform].
  - rewrite queue_self. unfold timestamps_cover_status; cbn.
    repeat split; intros; try congruence; intuition congruence.
  - destruct (order_statuses_eqb_spec (status o) QUEUED) as [Hq|Hq].
    + destruct (resubmit_queued o w Hq) as [_ ->].
      unfold timestamps_cover_status; cbn.
      repeat split; intros; try congruence; intuition congruence.
    + rewrite (resubmit_not_queued o w Hq). now repeat split.
  - destruct (terminal (status o)) eqn:Ht.
    + rewrite (cancel_noop_terminal silent source o w Ht). now repeat split.
    + destruct (String.eqb source "stream" && is_queued o) eqn:Hg.
      * apply andb_prop in Hg as [Hs Hq].
        apply String.eqb_eq in Hs; subst source.
        apply is_queued_iff in Hq.
        rewrite (cancel_noop_stream_queued silent o w Hq). now repeat split.
      * destruct (cancel_self silent source o w Ht Hg) as [_ ->].
        unfold timestamps_cover_status; cbn.
        repeat split; intros; try congruence; intuition congruence.
  - destruct (terminal (status o)) eqn:Ht.
    + rewrite (execute_noop_terminal silent o w Ht). now repeat split.
    + destruct (execute_self silent o w Ht) as [_ ->].
      unfold timestamps_cover_status; cbn.
      repeat split; intros; try congruence; intuition congruence.
  - destruct (execute_partially_self silent o w) as [_ ->].
    unfold timestamps_cover_status; cbn.
    repeat split; intros; try congruence; intuition congruence.
Qed.

(** C1 (as the code has it): along every sequence of lifecycle operations
    from a fresh record, executed-at is set whenever the status is Executed
    or PartiallyFilled, canceled-at is set whenever the status is Canceled,
    and canceled-at is null whenever the status is Active or Queued. *)
Theorem reachable_timestamps_cover_status (o0 o : Order) :
  fresh o0 -> reachable o0 o -> timestamps_cover_status o.
Proof.
  intros (Hst & He & Hc) Hr.
  induction Hr as [|o w op Hr IH].
  - unfold timestamps_cover_status.
    repeat split; intros; try congruence; intuition congruence.
  - now apply perform_keeps_cover.
Qed.

Lemma reachable_timestamps_cover_status_witness :
  let o0 := sample_order ACTIVE in
  let o := fst (run_ops [ExecutePartially false; Cancel false "stream"; Queue]
                  (o0, loud_world 5)) in
  fresh o0 /\ reachable o0 o /\ timestamps_cover_status o.
Proof.
  assert (Hf : fresh (sample_order ACTIVE))
    by (unfold fresh; cbn; intuition congruence).
  assert (Hr : reachable (sample_order ACTIVE)
                 (fst (run_ops
                         [ExecutePartially false; Cancel false "stream"; Queue]
                         (sample_order ACTIVE, loud_world 5))))
    by (apply run_ops_reachable, reach_start).
  exact (conj Hf (conj Hr
           (reachable_timestamps_cover_status _ _ Hf Hr))).
Defined.

(** C1 (as stated) fails: a partial fill followed by a cancellation leaves
    both timestamps set, with status Canceled. *)
Lemma partial_fill_then_cancel_sets_both_timestamps :
  let o0 := sample_order ACTIVE in
  let o := fst (run_ops [ExecutePartially true; Cancel true "stream"]
                  (o0, quiet_world 5)) in
  fresh o0 /\ reachable o0 o /\
  status o = CANCELED /\ executed_at o = Some 5 /\ canceled_at o = Some 5 /\
  ~ timestamps_match_status o.
Proof.
  cbv zeta. split; [|split].
  - unfold fresh; cbn; intuition congruence.
  - apply run_ops_reachable, reach_start.
  - vm_compute. repeat split.
    intros ([H|H] & _); discriminate H.
Qed.

(** When [execute_partially] is kept to orders that are not terminal,
    canceled-at is set exactly when the status is Canceled. *)
Lemma guarded_canceled_at_iff_canceled (o0 o : Order) :
  fresh o0 -> reachable_guarded o0 o ->
  (canceled_at o <> None <-> status o = CANCELED).
Proof.
  intros (Hst & He & Hc) Hr.
  induction Hr as [|o w op Hr IH Hguard].
  - rewrite Hc. split; [congruence|]. destruct Hst; congruence.
  - destruct op as [| |silent source|silent|silent]; cbn [perform].
    + rewrite queue_self. cbn. split; congruence.
    + destruct (order_statuses_eqb_spec (status o) QUEUED) as [Hq|Hq].
      * destruct (resubmit_queued o w Hq) as [_ ->]. cbn. split; congruence.
      * now rewrite (resubmit_not_queued o w Hq).
    + destruct (terminal (status o)) eqn:Ht.
      * now rewrite (cancel_noop_terminal silent source o w Ht).
      * destruct (String.eqb source "stream" && is_queued o) eqn:Hg.
        -- apply andb_prop in Hg as [Hs Hq].
           apply String.eqb_eq in Hs; subst source.
           apply is_queued_iff in Hq.
           now rewrite (cancel_noop_stream_queued silent o w Hq).
        -- destruct (cancel_self silent source o w Ht Hg) as [_ ->].
           cbn. split; congruence.
    + destruct (terminal (status o)) eqn:Ht.
      * now rewrite (execute_noop_terminal silent o w Ht).
      * destruct (execute_self silent o w Ht) as [_ ->]. cbn.
        split; [|congruence].
        intros Hn. apply IH in Hn. rewrite Hn in Ht. discriminate Ht.
    + destruct (execute_partially_self silent o w) as [_ ->]. cbn.
      specialize (Hguard silent eq_refl).
      split; [|congruence].
      intros Hn. apply IH in Hn. rewrite Hn in Hguard. discriminate Hguard.
Qed.

(** The constructor leaves a fresh record fresh and returns normally. *)
Lemma init_keeps_fresh (o : Order) (w : World) :
  fresh o ->
  result_of (__init__ (o, w)) = inr tt /\ fresh (self_of (__init__ (o, w))).
Proof.
  intros Hf. unfold __init__. unfold_methods.
  split; split_branches; try reflexivity; exact Hf.
Qed.

(** ** Partial execution *)

(** C2 (as the code has it): on an order that is not terminal,
    [execute_partially] sets executed-at to the current time and the status
    to PartiallyFilled, and returns normally; filled-qty is left as the
    caller set it, like every other field. *)
Theorem execute_partially_effect (silent : bool) (o : Order) (w : World) :
  terminal (status o) = false ->
  let r := execute_partially silent (o, w) in
  result_of r = inr tt /\
  executed_at (self_of r) = Some (time w) /\
  status (self_of r) = PARTIALLY_FILLED /\
  filled_qty (self_of r) = filled_qty o /\
  self_of r = set_status PARTIALLY_FILLED (set_executed_at (Some (time w)) o).
Proof.
  intros _ r. subst r.
  destruct (execute_partially_self silent o w) as [Hres Hself].
  rewrite Hres, Hself. cbn. repeat split.
Qed.

Lemma execute_partially_effect_witness :
  let o := sample_order ACTIVE in
  let r := execute_partially false (o, loud_world 5) in
  terminal (status o) = false /\
  result_of r = inr tt /\
  executed_at (self_of r) = Some 5 /\
  status (self_of r) = PARTIALLY_FILLED /\
  filled_qty (self_of r) = filled_qty o /\
  self_of r = set_status PARTIALLY_FILLED (set_executed_at (Some 5) o).
Proof.
  exact (conj eq_refl
           (execute_partially_effect false (sample_order ACTIVE) (loud_world 5)
              eq_refl)).
Defined.

(** C2 (as stated) fails: the method takes no fill and leaves filled-qty
    where it was, so it is not increased. *)
Lemma execute_partially_does_not_increase_filled_qty :
  let o := sample_order ACTIVE in
  let w := loud_world 5 in
  let o' := self_of (execute_partially false (o, w)) in
  terminal (status o) = false /\
  filled_qty o = 0%float /\ filled_qty o' = 0%float /\
  ~ (executed_at o' = Some (time w) /\
     PrimFloat.ltb (filled_qty o) (filled_qty o') = true /\
     status o' = PARTIALLY_FILLED).
Proof.
  cbv zeta. repeat split.
  intros (_ & Hlt & _). vm_compute in Hlt. discriminate Hlt.
Qed.

(** ** Resubmission *)

Lemma perform_result_other (op : operation) (s : Sys) :
  op <> Resubmit -> result_of (perform op s) = inr tt.
Proof.
  intros Hop. destruct s as [o w].
  destruct op as [| |silent source|silent|silent]; cbn [perform].
  - apply queue_result.
  - contradiction.
  - destruct (terminal (status o)) eqn:Ht.
    + now rewrite cancel_noop_terminal.
    + destruct (String.eqb source "stream" && is_queued o) eqn:Hg.
      * apply andb_prop in Hg as [Hs Hq].
        apply String.eqb_eq in Hs; subst source.
        apply is_queued_iff in Hq.
        now rewrite cancel_noop_stream_queued.
      * apply cancel_self; assumption.
  - destruct (terminal (status o)) eqn:Ht.
    + now rewrite execute_noop_terminal.
    + now apply execute_self.
  - apply execute_partially_self.
Qed.

(** C3: [resubmit] raises exactly when the status is not Queued; when it
    raises, neither the record nor the world has changed; and no other
    lifecycle operation raises. *)
Theorem resubmit_raises_iff_not_queued (o : Order) (w : World) :
  ((exists e, result_of (resubmit (o, w)) = inl e) <-> status o <> QUEUED) /\
  (forall e, result_of (resubmit (o, w)) = inl e ->
     e = NotSupportedError (status o) /\ snd (resubmit (o, w)) = (o, w)) /\
  (forall op s, op <> Resubmit -> result_of (perform op s) = inr tt).
Proof.
  destruct (order_statuses_eqb_spec (status o) QUEUED) as [Hq|Hq].
  - destruct (resubmit_queued o w Hq) as [Hres _].
    split; [split|split].
    + intros [e He]. rewrite Hres in He. discriminate.
    + intros Hn. contradiction.
    + intros e He. rewrite Hres in He. discriminate.
    + apply perform_result_other.
  - rewrite (resubmit_not_queued o w Hq). cbn [result_of fst snd].
    split; [split|split].
    + intros _. exact Hq.
    + intros _. eexists. reflexivity.
    + intros e He. injection He as <-. split; reflexivity.
    + apply perform_result_other.
Qed.

Lemma resubmit_raises_iff_not_queued_witness :
  let o := sample_order ACTIVE in
  let w := loud_world 5 in
  status o <> QUEUED /\
  resubmit (o, w) = (inl (NotSupportedError ACTIVE), (o, w)) /\
  result_of (perform (Cancel false "") (o, w)) = inr tt.
Proof.
  pose proof (resubmit_raises_iff_not_queued (sample_order ACTIVE)
                (loud_world 5)) as (_ & Hraise & Hothers).
  split; [discriminate|]. split; [reflexivity|].
  apply Hothers. discriminate.
Defined.

(** ** Fresh identifiers *)

Lemma fold_max_bound (l : list UUID) (x : UUID) :
  In x l -> (x <= fold_right N.max 0%N l)%N.
Proof.
  induction l as [|y l IH]; cbn [In fold_right].
  - contradiction.
  - intros [->|Hin]; [lia|]. specialize (IH Hin). lia.
Qed.

Lemma fresh_uuid_not_issued (l : list UUID) : ~ In (jh.fresh_uuid l) l.
Proof.
  intros Hin. apply fold_max_bound in Hin. unfold jh.fresh_uuid in Hin. lia.
Qed.

(** C4: on a queued order whose id is among those issued, [resubmit]
    returns normally with a new id (different from the old one and from
    every id issued before), status Active, canceled-at null, and every
    other field as it was. *)
Theorem resubmit_queued_effect (o : Order) (w : World) :
  status o = QUEUED ->
  In (id o) (uuids_issued w) ->
  let r := resubmit (o, w) in
  let o' := self_of r in
  result_of r = inr tt /\
  id o' <> id o /\ ~ In (id o') (uuids_issued w) /\
  status o' = ACTIVE /\ canceled_at o' = None /\
  symbol o' = symbol o /\ exchange o' = exchange o /\ side o' = side o /\
  type o' = type o /\ qty o' = qty o /\ filled_qty o' = filled_qty o /\
  price o' = price o /\ created_at o' = created_at o /\
  executed_at o' = executed_at o /\ trade_id o' = trade_id o /\
  session_id o' = session_id o /\ reduce_only o' = reduce_only o /\
  exchange_id o' = exchange_id o /\ vars o' = vars o /\
  submitted_via o' = submitted_via o.
Proof.
  intros Hq Hin r o'. subst o' r.
  destruct (resubmit_queued o w Hq) as [Hres Hself].
  rewrite Hres, Hself. cbn.
  pose proof (fresh_uuid_not_issued (uuids_issued w)) as Hfresh.
  repeat split; try assumption.
  intros Heq. rewrite Heq in Hfresh. contradiction.
Qed.

Lemma resubmit_queued_effect_witness :
  let o := sample_order QUEUED in
  let w := loud_world 5 in
  let o' := self_of (resubmit (o, w)) in
  (status o = QUEUED /\ In (id o) (uuids_issued w)) /\
  id o' = 8%N /\ id o' <> id o /\ status o' = ACTIVE.
Proof.
  pose proof (resubmit_queued_effect (sample_order QUEUED) (loud_world 5)
                eq_refl (or_introl eq_refl)) as H.
  cbv zeta in H.
  exact (conj (conj eq_refl (or_introl eq_refl))
           (conj eq_refl
              (conj (proj1 (proj2 H)) (proj1 (proj2 (proj2 (proj2 H))))))).
Defined.

(** ** Idempotence of cancel and execute *)

Lemma execute_reaches_terminal (silent : bool) (o : Order) (w : World) :
  terminal (status (self_of (execute silent (o, w)))) = true.
Proof.
  destruct (terminal (status o)) eqn:Ht.
  - now rewrite execute_noop_terminal.
  - destruct (execute_self silent o w Ht) as [_ ->]. reflexivity.
Qed.

Lemma cancel_again_noop (s1 s2 : bool) (source : string) (o : Order) (w w2 : World) :
  let o1 := self_of (cancel s1 source (o, w)) in
  cancel s2 source (o1, w2) = (inr tt, (o1, w2)).
Proof.
  intros o1. subst o1.
  destruct (terminal (status o)) eqn:Ht.
  - rewrite (cancel_noop_terminal s1 source o w Ht). cbn [self_of fst snd].
    now apply cancel_noop_terminal.
  - destruct (String.eqb source "stream" && is_queued o) eqn:Hg.
    + apply andb_prop in Hg as [Hs Hq].
      apply String.eqb_eq in Hs; subst source.
      apply is_queued_iff in Hq.
      rewrite (cancel_noop_stream_queued s1 o w Hq). cbn [self_of fst snd].
      now apply cancel_noop_stream_queued.
    + destruct (cancel_self s1 source o w Ht Hg) as [_ ->].
      now apply cancel_noop_terminal.
Qed.

(** C5: on an order that is already Canceled or Executed, [cancel] and
    [execute] return with the record and the world (hence the trace of
    calls) exactly as they were; so a second [execute], or a second
    [cancel] from the same source, right after the first changes nothing
    and calls nothing, and after [execute] the status is terminal. *)
Theorem cancel_execute_idempotent :
  (forall silent source o w,
     terminal (status o) = true ->
     cancel silent source (o, w) = (inr tt, (o, w)) /\
     execute silent (o, w) = (inr tt, (o, w))) /\
  (forall s1 s2 st,
     terminal (status (fst (snd (execute s1 st)))) = true /\
     execute s2 (snd (execute s1 st)) = (inr tt, snd (execute s1 st))) /\
  (forall s1 s2 source st,
     cancel s2 source (snd (cancel s1 source st)) =
       (inr tt, snd (cancel s1 source st))).
Proof.
  split; [|split].
  - intros silent source o w Ht. split.
    + now apply cancel_noop_terminal.
    + now apply execute_noop_terminal.
  - intros s1 s2 [o w].
    pose proof (execute_reaches_terminal s1 o w) as Ht. unfold self_of in Ht.
    split; [exact Ht|].
    destruct (snd (execute s1 (o, w))) as [o1 w1]. cbn [fst] in Ht.
    now apply execute_noop_terminal.
  - intros s1 s2 source [o w].
    pose proof (cancel_again_noop s1 s2 source o w) as H.
    unfold self_of in H. cbv zeta in H.
    destruct (snd (cancel s1 source (o, w))) as [o1 w1]. apply H.
Qed.

Lemma cancel_execute_idempotent_witness :
  let o := sample_order CANCELED in
  let w := loud_world 5 in
  terminal (status o) = true /\
  cancel false "" (o, w) = (inr tt, (o, w)) /\
  execute false (o, w) = (inr tt, (o, w)).
Proof.
  exact (conj eq_refl
           (proj1 cancel_execute_idempotent false "" (sample_order CANCELED)
              (loud_world 5) eq_refl)).
Defined.

(** ** The stream guard of cancel *)

(** C6: with source 'stream', [cancel] on a queued order returns with
    nothing changed and nothing called; on an active or partially filled
    order it does what [cancel] does from any other source: status
    Canceled, canceled-at the current time, one call of the accounting
    collaborator. Among the orders that are not terminal, the call leaves
    the state as it was exactly when the status is Queued; and over all
    orders, the source 'stream' makes a difference exactly when the status
    is Queued. *)
Theorem cancel_stream_guard (silent : bool) (o : Order) (w : World) :
  (status o = QUEUED -> cancel silent "stream" (o, w) = (inr tt, (o, w))) /\
  (is_cancellable o = true ->
     let r := cancel silent "stream" (o, w) in
     r = cancel silent "" (o, w) /\
     result_of r = inr tt /\
     status (self_of r) = CANCELED /\
     canceled_at (self_of r) = Some (time w) /\
     exists l, trace (world_of r) = trace w ++ l /\
               port_calls l =
                 [on_order_cancellation (exchange o) (self_of r)]) /\
  (terminal (status o) = false ->
     (cancel silent "stream" (o, w) = (inr tt, (o, w)) <-> status o = QUEUED)) /\
  (cancel silent "stream" (o, w) <> cancel silent "" (o, w) <->
   status o = QUEUED).
Proof.
  assert (Hact : terminal (status o) = false -> status o <> QUEUED ->
                 forall source,
                   String.eqb source "stream" && is_queued o = false).
  { intros _ Hnq source. apply andb_false_iff. right.
    destruct (is_queued o) eqn:Hq; [|reflexivity].
    apply is_queued_iff in Hq. contradiction. }
  assert (Hsame : status o <> QUEUED ->
                  cancel silent "stream" (o, w) = cancel silent "" (o, w)).
  { intros Hnq.
    assert (Hq : is_queued o = false)
      by (destruct (is_queued o) eqn:E;
          [exfalso; apply Hnq; now apply is_queued_iff|reflexivity]).
    unfold cancel, bind, get_self; cbn [fst snd].
    rewrite Hq, !andb_false_r. reflexivity. }
  split; [|split; [|split]].
  - apply cancel_noop_stream_queued.
  - intros Hc r.
    assert (Ht : terminal (status o) = false)
      by (unfold is_cancellable, is_active, is_partially_filled in Hc;
          destruct (status o); cbn in Hc |- *; congruence).
    assert (Hnq : status o <> QUEUED)
      by (unfold is_cancellable, is_active, is_partially_filled in Hc;
          destruct (status o); cbn in Hc |- *; congruence).
    pose proof (cancel_self silent "stream" o w Ht (Hact Ht Hnq _)) as [Hres Hself].
    pose proof (cancel_trace silent "stream" o w Ht (Hact Ht Hnq _)) as Htr.
    cbv zeta in Htr. subst r. split; [now apply Hsame|].
    rewrite Hres, Hself. repeat split.
    eexists. split; [exact Htr|].
    rewrite port_calls_app, port_calls_notes. reflexivity.
  - intros Ht. split.
    + intros Hnoop.
      destruct (order_statuses_eqb_spec (status o) QUEUED) as [Hq|Hq]; [exact Hq|].
      destruct (cancel_self silent "stream" o w Ht (Hact Ht Hq _)) as [_ Hself].
      rewrite Hnoop in Hself. cbn [self_of fst snd] in Hself.
      apply (f_equal status) in Hself. cbn in Hself.
      rewrite Hself in Ht. discriminate Ht.
    + apply cancel_noop_stream_queued.
  - split.
    + intros Hne.
      destruct (order_statuses_eqb_spec (status o) QUEUED) as [Hq|Hq]; [exact Hq|].
      exfalso. apply Hne. now apply Hsame.
    + intros Hq Heq.
      rewrite (cancel_noop_stream_queued silent o w Hq) in Heq.
      assert (Ht : terminal (status o) = false) by (now rewrite Hq).
      assert (Hg : String.eqb "" "stream" && is_queued o = false) by reflexivity.
      destruct (cancel_self silent "" o w Ht Hg) as [_ Hself].
      rewrite <- Heq in Hself. cbn [self_of fst snd] in Hself.
      apply (f_equal status) in Hself. cbn in Hself. congruence.
Qed.

Lemma cancel_stream_guard_witness :
  let w := loud_world 5 in
  (status (sample_order QUEUED) = QUEUED /\
   cancel false "stream" (sample_order QUEUED, w) =
     (inr tt, (sample_order QUEUED, w))) /\
  (is_cancellable (sample_order PARTIALLY_FILLED) = true /\
   status (self_of (cancel false "stream" (sample_order PARTIALLY_FILLED, w)))
     = CANCELED).
Proof.
  split.
  - exact (conj eq_refl
             (proj1 (cancel_stream_guard false (sample_order QUEUED)
                       (loud_world 5)) eq_refl)).
  - split; [reflexivity|].
    apply (proj1 (proj2 (cancel_stream_guard false
                           (sample_order PARTIALLY_FILLED) (loud_world 5)))).
    reflexivity.
Defined.

(** ** Order of the calls on execution *)

(** C7: on an order that is not terminal, the calls [execute] adds to the
    trace are, after the logging and notification, the trade ledger once,
    then the accounting collaborator, then the position when there is one
    for the exchange and symbol; [execute_partially] adds the trade ledger
    once, then the position when there is one. *)
Theorem execution_calls_in_order (silent : bool) (o : Order) (w : World) :
  terminal (status o) = false ->
  (let r := execute silent (o, w) in
   exists l, trace (world_of r) = trace w ++ l /\
     port_calls l =
       [add_executed_order (self_of r);
        on_order_execution (exchange o) (self_of r)] ++
       match positions w (exchange o) (symbol o) with
       | Some p => [_on_executed_order p (self_of r)]
       | None => []
       end) /\
  (let r := execute_partially silent (o, w) in
   exists l, trace (world_of r) = trace w ++ l /\
     port_calls l =
       [add_executed_order (self_of r)] ++
       match positions w (exchange o) (symbol o) with
       | Some p => [_on_executed_order p (self_of r)]
       | None => []
       end).
Proof.
  intros Ht. split; intros r; subst r.
  - destruct (execute_self silent o w Ht) as [_ Hself].
    pose proof (execute_trace silent o w Ht) as Htr. cbv zeta in Htr.
    rewrite Hself. eexists. split; [exact Htr|].
    rewrite port_calls_app, port_calls_notes.
    unfold position_call. cbn [exchange symbol set_status set_executed_at].
    destruct (positions w (exchange o) (symbol o)); reflexivity.
  - destruct (execute_partially_self silent o w) as [_ Hself].
    pose proof (execute_partially_trace silent o w) as Htr. cbv zeta in Htr.
    rewrite Hself. eexists. split; [exact Htr|].
    rewrite port_calls_app, port_calls_notes.
    unfold position_call. cbn [exchange symbol set_status set_executed_at].
    destruct (positions w (exchange o) (symbol o)); reflexivity.
Qed.

Lemma execution_calls_in_order_witness :
  let o := sample_order ACTIVE in
  let w := loud_world 5 in
  let o' := set_status EXECUTED (set_executed_at (Some 5) o) in
  terminal (status o) = false /\
  trace (world_of (execute true (o, w))) =
    [add_executed_order o'; on_order_execution "Binance" o';
     _on_executed_order (PositionOf "Binance" "BTC-USDT") o'] /\
  exists l, trace (world_of (execute false (o, w))) = trace w ++ l /\
    port_calls l =
      [add_executed_order o'; on_order_execution "Binance" o';
       _on_executed_order (PositionOf "Binance" "BTC-USDT") o'].
Proof.
  split; [reflexivity|]. split; [reflexivity|].
  exact (proj1 (execution_calls_in_order false (sample_order ACTIVE)
                  (loud_world 5) eq_refl)).
Defined.

(** ** Terminal orders *)

(** C8 (as the code has it): on an order that is Executed or Canceled,
    [cancel] and [execute] change nothing and [resubmit] raises with nothing
    changed; [queue] does apply: it returns normally with status Queued and
    canceled-at null, every other field as it was. *)
Theorem terminal_order_operations (o : Order) (w : World) :
  terminal (status o) = true ->
  (forall silent source, cancel silent source (o, w) = (inr tt, (o, w))) /\
  (forall silent, execute silent (o, w) = (inr tt, (o, w))) /\
  resubmit (o, w) = (inl (NotSupportedError (status o)), (o, w)) /\
  result_of (queue (o, w)) = inr tt /\
  self_of (queue (o, w)) = set_canceled_at None (set_status QUEUED o).
Proof.
  intros Ht. repeat split.
  - intros silent source. now apply cancel_noop_terminal.
  - intros silent. now apply execute_noop_terminal.
  - apply resubmit_not_queued. intros Hq. rewrite Hq in Ht. discriminate Ht.
  - apply queue_result.
  - apply queue_self.
Qed.

Lemma terminal_order_operations_witness :
  let o := set_canceled_at (Some 3) (sample_order CANCELED) in
  let w := loud_world 5 in
  terminal (status o) = true /\
  cancel false "" (o, w) = (inr tt, (o, w)) /\
  status (self_of (queue (o, w))) = QUEUED.
Proof.
  pose proof (terminal_order_operations
                (set_canceled_at (Some 3) (sample_order CANCELED))
                (loud_world 5) eq_refl) as H.
  exact (conj eq_refl (conj (proj1 H false "") eq_refl)).
Defined.

(** C8 (as stated) fails: [queue] on a canceled order changes the status
    and clears canceled-at. *)
Lemma queue_mutates_canceled_order :
  let o := set_canceled_at (Some 3) (sample_order CANCELED) in
  let o' := self_of (perform Queue (o, quiet_world 5)) in
  terminal (status o) = true /\ Queue <> Resubmit /\
  status o' = QUEUED /\ canceled_at o = Some 3 /\ canceled_at o' = None /\
  o' <> o.
Proof.
  cbv zeta. repeat split.
  - discriminate.
  - intros H. apply (f_equal status) in H. vm_compute in H. discriminate H.
Qed.

(** ** Derived quantities *)

(** C9: the remaining quantity is the side's sign applied to
    |qty| - |filled qty|; it depends on nothing but the three fields qty,
    filled_qty and side; a sell order of qty -2 with 1 filled has -1
    remaining. *)
Theorem remaining_qty_spec :
  (forall o,
     remaining_qty o =
       jh.prepare_qty
         (PrimFloat.sub (PrimFloat.abs (qty o)) (PrimFloat.abs (filled_qty o)))
         (side o)) /\
  (forall o o',
     qty o = qty o' -> filled_qty o = filled_qty o' -> side o = side o' ->
     remaining_qty o = remaining_qty o') /\
  (forall o,
     side o = SELL -> qty o = (-2)%float -> filled_qty o = 1%float ->
     remaining_qty o = (-1)%float) /\
  (forall o,
     side o = BUY -> qty o = 2%float -> filled_qty o = 1%float ->
     remaining_qty o = 1%float).
Proof.
  split; [|split; [|split]].
  - intros o. reflexivity.
  - intros o o' Hq Hf Hs. unfold remaining_qty. now rewrite Hq, Hf, Hs.
  - intros o Hs Hq Hf. unfold remaining_qty. rewrite Hs, Hq, Hf. reflexivity.
  - intros o Hs Hq Hf. unfold remaining_qty. rewrite Hs, Hq, Hf. reflexivity.
Qed.

Lemma remaining_qty_spec_witness :
  let o := mkOrder 7%N None 1%N None "{}" "BTC-USDT" "Binance" SELL "LIMIT"
             false (-2)%float 1%float (Some 100%float) PARTIALLY_FILLED
             (Some 1000) (Some 2000) None None in
  (side o = SELL /\ qty o = (-2)%float /\ filled_qty o = 1%float) /\
  remaining_qty o = (-1)%float.
Proof.
  split; [repeat split|].
  apply (proj1 (proj2 (proj2 remaining_qty_spec))); reflexivity.
Defined.

(** C10: with a price, the notional value is |qty| * price; without one the
    product fails with a TypeError; so [value] yields a number exactly when
    the price is not null. *)
Theorem value_spec (o : Order) :
  (forall p, price o = Some p ->
     value o = inr (PrimFloat.mul (PrimFloat.abs (qty o)) p)) /\
  (price o = None -> value o = inl TypeError) /\
  ((exists e, value o = inl e) <-> price o = None).
Proof.
  unfold value. destruct (price o) as [p|].
  - split; [|split; [|split]].
    + intros p' Hp. injection Hp as <-. reflexivity.
    + discriminate.
    + intros [e He]. discriminate He.
    + discriminate.
  - split; [|split; [|split]].
    + discriminate.
    + reflexivity.
    + reflexivity.
    + intros _. eexists. reflexivity.
Qed.

Lemma value_spec_witness :
  (price (sample_order ACTIVE) = Some 100%float /\
   value (sample_order ACTIVE) = inr 200%float) /\
  (price (set_status ACTIVE
            (mkOrder 7%N None 1%N None "{}" "BTC-USDT" "Binance" BUY "MARKET"
               false 2%float 0%float None ACTIVE (Some 1000) None None None))
     = None /\
   value (mkOrder 7%N None 1%N None "{}" "BTC-USDT" "Binance" BUY "MARKET"
            false 2%float 0%float None ACTIVE (Some 1000) None None None)
     = inl TypeError).
Proof.
  split.
  - split; [reflexivity|].
    exact (proj1 (value_spec (sample_order ACTIVE)) 100%float eq_refl).
  - split; [reflexivity|].
    exact (proj1 (proj2 (value_spec
             (mkOrder 7%N None 1%N None "{}" "BTC-USDT" "Binance" BUY "MARKET"
                false 2%float 0%float None ACTIVE (Some 1000) None None None)))
             eq_refl).
Defined.

(** * Further properties of the model *)

(** ** What the methods leave of the world *)


Lemma init_world_frame (o : Order) (w : World) :
  let w' := world_of (__init__ (o, w)) in
  time w' = time w /\ uuids_issued w' = uuids_issued w.
Proof.
  cbv zeta. unfold __init__. unfold_methods. split_branches;
    split; (reflexivity || congruence).
Qed.

(** ** Construction *)

(** X1: the constructor returns normally; it stamps created-at with the
    current time only when the attributes gave none, and changes no other
    field, whatever the status. *)
Theorem init_effect (o : Order) (w : World) :
  let r := __init__ (o, w) in
  result_of r = inr tt /\
  created_at (self_of r) =
    match created_at o with
    | Some t => Some t
    | None => Some (time w)
    end /\
  self_of r = set_created_at (created_at (self_of r)) o.
Proof.
  cbv zeta. unfold __init__. unfold_methods.
  destruct o as [i tr se ex va sy exch sd ty ro q fq p st [c|] e ca sv];
    cbn [created_at is_not_None negb]; simpl_state;
    repeat split; split_branches; reflexivity.
Qed.

(** X2: the calls of the constructor, in order: the notifier (in live mode,
    when submitted-order events are enabled and the order is active or
    queued), the logger (when order submission is debuggable and the order
    is active or queued), then the accounting collaborator, always, with
    the record as constructed. *)
Theorem init_calls (o : Order) (w : World) :
  let r := __init__ (o, w) in
  trace (world_of r) =
    trace w ++
    (if live w && (notifications_events w "submitted_orders" &&
                   (is_active o || is_queued o))
     then [notify (submission_txt o)] else []) ++
    (if debug_mode w "order_submission" && (is_active o || is_queued o)
     then [logger_info (submission_txt o)] else []) ++
    [on_order_submission (exchange o) (self_of r)].
Proof.
  cbv zeta.
  destruct o as [i tr se ex va sy exch sd ty ro q fq p st c e ca sv].
  destruct w as [t ids lv dbg ne pos tr0].
  unfold __init__. unfold_methods.
  unfold is_active, is_queued, submission_txt, is_queued.
  cbn [created_at status live debug_mode notifications_events trace].
  destruct c as [c|], st, lv; cbn;
    destruct (ne "submitted_orders"); cbn;
    destruct (dbg "order_submission"); cbn;
    rewrite <- ?app_assoc; reflexivity.
Qed.

(** ** Queueing and resubmission *)

(** X3: [queue] applies from any status: it returns normally with status
    Queued and canceled-at null, every other field as it was. It logs only
    when order submission is debuggable and the price is truthy, it notifies
    whenever submitted-order events are enabled (live mode or not), and it
    calls none of the accounting, ledger and position collaborators. *)
Theorem queue_effect_and_calls (o : Order) (w : World) :
  let r := queue (o, w) in
  let txt := order_txt "QUEUED order" (symbol o) (type o) (side o) (qty o)
               (price_if_truthy o) in
  result_of r = inr tt /\
  self_of r = set_canceled_at None (set_status QUEUED o) /\
  trace (world_of r) =
    trace w ++
    (if debug_mode w "order_submission" && is_not_None (price_if_truthy o)
     then [logger_info txt] else []) ++
    (if notifications_events w "submitted_orders" then [notify txt] else []) /\
  port_calls (trace (world_of r)) = port_calls (trace w).
Proof.
  cbv zeta.
  assert (Htrace :
    trace (world_of (queue (o, w))) =
      trace w ++
      (if debug_mode w "order_submission" && is_not_None (price_if_truthy o)
       then [logger_info
               (order_txt "QUEUED order" (symbol o) (type o) (side o) (qty o)
                  (price_if_truthy o))] else []) ++
      (if notifications_events w "submitted_orders"
       then [notify
               (order_txt "QUEUED order" (symbol o) (type o) (side o) (qty o)
                  (price_if_truthy o))] else [])).
  { unfold_methods. unfold submission_txt, is_active, is_queued.
    change (price_if_truthy (set_canceled_at None (set_status QUEUED o)))
      with (price_if_truthy o).
    cbn [status set_canceled_at set_status order_statuses_eqb orb].
    destruct (debug_mode w "order_submission"); simpl_state;
      destruct (is_not_None (price_if_truthy o)); simpl_state;
      rewrite ?andb_true_r, ?andb_false_r;
      destruct (notifications_events w "submitted_orders"); simpl_state;
      cbn [app andb]; rewrite <- ?app_assoc, ?app_nil_r; reflexivity. }
  split; [apply queue_result|]. split; [apply queue_self|].
  split; [exact Htrace|].
  rewrite Htrace, !port_calls_app.
  destruct (debug_mode w "order_submission" && is_not_None (price_if_truthy o)),
    (notifications_events w "submitted_orders");
    cbn; now rewrite app_nil_r.
Qed.

Lemma resubmit_queued_run (o : Order) (w : World) :
  status o = QUEUED ->
  resubmit (o, w) =
    (inr tt,
     (set_canceled_at None
        (set_status ACTIVE (set_id (jh.fresh_uuid (uuids_issued w)) o)),
      set_trace
        (trace w ++
         (if debug_mode w "order_submission" && is_not_None (price_if_truthy o)
          then [logger_info
                  (order_txt "SUBMITTED order" (symbol o) (type o) (side o)
                     (qty o) (price_if_truthy o))] else []) ++
         (if notifications_events w "submitted_orders"
          then [notify
                  (order_txt "SUBMITTED order" (symbol o) (type o) (side o)
                     (qty o) (price_if_truthy o))] else []))
        (set_uuids_issued
           (jh.fresh_uuid (uuids_issued w) :: uuids_issued w) w))).
Proof.
  intros Hq. apply is_queued_iff in Hq.
  unfold resubmit, bind at 1, get_self at 1. cbn [fst snd].
  rewrite Hq. cbn [negb].
  unfold_methods. unfold submission_txt, is_active, is_queued.
  cbn [status set_canceled_at set_status set_id order_statuses_eqb orb
       symbol type side qty].
  change (price_if_truthy
            (set_canceled_at None
               (set_status ACTIVE
                  (set_id (jh.fresh_uuid (uuids_issued w)) o))))
    with (price_if_truthy o).
  destruct (debug_mode w "order_submission"); simpl_state;
    destruct (is_not_None (price_if_truthy o)); simpl_state;
    rewrite ?andb_true_r, ?andb_false_r;
    destruct (notifications_events w "submitted_orders"); simpl_state;
    cbn [app andb]; rewrite <- ?app_assoc, ?app_nil_r; reflexivity.
Qed.

(** X4: on a queued order [resubmit] records the new id as issued, keeps
    the clock and the configuration, logs only when order submission is
    debuggable and the price is truthy, notifies whenever submitted-order
    events are enabled, and calls none of the accounting, ledger and
    position collaborators. *)
Theorem resubmit_calls (o : Order) (w : World) :
  status o = QUEUED ->
  let r := resubmit (o, w) in
  let txt := order_txt "SUBMITTED order" (symbol o) (type o) (side o) (qty o)
               (price_if_truthy o) in
  uuids_issued (world_of r) = id (self_of r) :: uuids_issued w /\
  trace (world_of r) =
    trace w ++
    (if debug_mode w "order_submission" && is_not_None (price_if_truthy o)
     then [logger_info txt] else []) ++
    (if notifications_events w "submitted_orders" then [notify txt] else []) /\
  port_calls (trace (world_of r)) = port_calls (trace w).
Proof.
  intros Hq. cbv zeta. rewrite (resubmit_queued_run o w Hq).
  cbn [world_of self_of fst snd trace set_trace uuids_issued set_uuids_issued
       id set_canceled_at set_status set_id].
  repeat split.
  rewrite !port_calls_app.
  destruct (debug_mode w "order_submission" && is_not_None (price_if_truthy o)),
    (notifications_events w "submitted_orders");
    cbn; now rewrite app_nil_r.
Qed.

Lemma resubmit_calls_witness :
  let o := sample_order QUEUED in
  let r := resubmit (o, loud_world 5) in
  status o = QUEUED /\
  uuids_issued (world_of r) = [8%N; 7%N] /\
  port_calls (trace (world_of r)) = [].
Proof.
  pose proof (resubmit_calls (sample_order QUEUED) (loud_world 5) eq_refl)
    as (_ & _ & Hports).
  exact (conj eq_refl (conj eq_refl Hports)).
Defined.

(** ** The record as a function of the operation, the clock and the ids *)

Lemma perform_self (op : operation) (o : Order) (w : World) :
  self_of (perform op (o, w)) =
    record_after op (time w) (uuids_issued w) o.
Proof.
  destruct op as [| |silent source|silent|silent];
    cbn [perform record_after].
  - apply queue_self.
  - destruct (is_queued o) eqn:Hq.
    + apply is_queued_iff in Hq. now rewrite (resubmit_queued_run o w Hq).
    + rewrite resubmit_not_queued; [reflexivity|].
      intros H. apply is_queued_iff in H. congruence.
  - destruct (terminal (status o)) eqn:Ht; cbn [orb].
    + now rewrite cancel_noop_terminal.
    + destruct (String.eqb source "stream" && is_queued o) eqn:Hg.
      * apply andb_prop in Hg as [Hs Hq].
        apply String.eqb_eq in Hs; subst source.
        apply is_queued_iff in Hq.
        now rewrite cancel_noop_stream_queued.
      * now apply cancel_self.
  - destruct (terminal (status o)) eqn:Ht.
    + now rewrite execute_noop_terminal.
    + now apply execute_self.
  - apply execute_partially_self.
Qed.

Lemma perform_uuids (op : operation) (o : Order) (w : World) :
  uuids_issued (world_of (perform op (o, w))) =
    match op with
    | Resubmit =>
        if is_queued o
        then jh.fresh_uuid (uuids_issued w) :: uuids_issued w
        else uuids_issued w
    | _ => uuids_issued w
    end.
Proof.
  destruct op as [| |silent source|silent|silent]; cbn [perform].
  - unfold_methods; split_branches; reflexivity.
  - destruct (is_queued o) eqn:Hq.
    + apply is_queued_iff in Hq. now rewrite (resubmit_queued_run o w Hq).
    + rewrite resubmit_not_queued; [reflexivity|].
      intros H. apply is_queued_iff in H. congruence.
  - unfold_methods; split_branches; reflexivity.
  - unfold_methods; split_branches; reflexivity.
  - unfold_methods; split_branches; reflexivity.
Qed.

(** X5: the record an operation leaves depends on the world only through
    the clock and the ids issued: debug flags, live mode, notification
    settings, positions and the calls made so far never influence the
    record or whether the call raises. *)
Theorem record_ignores_configuration (op : operation) (o : Order)
    (w1 w2 : World) :
  time w1 = time w2 -> uuids_issued w1 = uuids_issued w2 ->
  self_of (perform op (o, w1)) = self_of (perform op (o, w2)) /\
  result_of (perform op (o, w1)) = result_of (perform op (o, w2)).
Proof.
  intros Ht Hi. split.
  - now rewrite !perform_self, Ht, Hi.
  - destruct op as [| |silent source|silent|silent].
    + cbn [perform]. now rewrite !queue_result.
    + cbn [perform]. destruct (order_statuses_eqb_spec (status o) QUEUED) as [Hq|Hq].
      * now rewrite !(resubmit_queued_run o _ Hq).
      * now rewrite !(resubmit_not_queued o _ Hq).
    + rewrite !perform_result_other by discriminate. reflexivity.
    + rewrite !perform_result_other by discriminate. reflexivity.
    + rewrite !perform_result_other by discriminate. reflexivity.
Qed.

Lemma record_ignores_configuration_witness :
  let o := sample_order ACTIVE in
  (time (loud_world 5) = time (quiet_world 5) /\
   uuids_issued (loud_world 5) = uuids_issued (quiet_world 5)) /\
  self_of (perform (Execute false) (o, loud_world 5)) =
    self_of (perform (Execute false) (o, quiet_world 5)).
Proof.
  exact (conj (conj eq_refl eq_refl)
           (proj1 (record_ignores_configuration (Execute false)
                     (sample_order ACTIVE) (loud_world 5) (quiet_world 5)
                     eq_refl eq_refl))).
Defined.

(** X6: the status follows a finite-state machine: after any sequence of
    operations it is the status the transition table gives, whatever the
    other fields and the world are. *)
Theorem status_follows_machine (ops : list operation) (o : Order) (w : World) :
  status (fst (run_ops ops (o, w))) =
    fold_left (fun st op => status_machine op st) ops (status o).
Proof.
  revert o w. induction ops as [|op ops IH]; intros o w.
  - reflexivity.
  - cbn [run_ops fold_left].
    destruct (snd (perform op (o, w))) as [o' w'] eqn:E.
    rewrite IH. f_equal.
    replace o' with (self_of (perform op (o, w)))
      by (unfold self_of; rewrite E; reflexivity).
    rewrite perform_self.
    destruct op as [| |silent source|silent|silent];
      cbn [record_after status_machine]; unfold is_queued.
    + reflexivity.
    + destruct (status o) eqn:Hst; cbn; congruence.
    + destruct (status o) eqn:Hst; cbn; try congruence;
        destruct (String.eqb source "stream"); cbn; congruence.
    + destruct (status o) eqn:Hst; cbn; congruence.
    + reflexivity.
Qed.

(** ** How queueing and resubmission compose *)

(** X7: from any status, terminal ones included, [queue] followed by
    [resubmit] returns normally both times and leaves the order Active with
    canceled-at null, an id that was not among those issued, and
    executed-at and all the other fields as they were. *)
Theorem queue_then_resubmit (o : Order) (w : World) :
  let s1 := snd (queue (o, w)) in
  let r := resubmit s1 in
  result_of (queue (o, w)) = inr tt /\ result_of r = inr tt /\
  status (self_of r) = ACTIVE /\ canceled_at (self_of r) = None /\
  ~ In (id (self_of r)) (uuids_issued w) /\
  executed_at (self_of r) = executed_at o /\
  same_terms o (self_of r).
Proof.
  cbv zeta.
  destruct (snd (queue (o, w))) as [o1 w1] eqn:E.
  assert (Ho1 : o1 = set_canceled_at None (set_status QUEUED o)).
  { rewrite <- queue_self with (w := w). unfold self_of. now rewrite E. }
  assert (Hids : uuids_issued w1 = uuids_issued w).
  { pose proof (perform_uuids Queue o w) as H. cbn [perform] in H.
    unfold world_of in H. now rewrite E in H. }
  assert (Hq : status o1 = QUEUED) by (now rewrite Ho1).
  rewrite (resubmit_queued_run o1 w1 Hq), queue_result.
  cbn [result_of self_of fst snd]. rewrite Hids, Ho1.
  unfold same_terms. cbn. repeat split.
  apply fresh_uuid_not_issued.
Qed.

(** X8: [resubmit] never succeeds twice in a row: whatever the first call
    did, a second call right after it raises and leaves the record and the
    world as the first call left them. *)
Theorem resubmit_twice_raises (o : Order) (w : World) :
  let s1 := snd (resubmit (o, w)) in
  exists st, st <> QUEUED /\
    resubmit s1 = (inl (NotSupportedError st), s1).
Proof.
  cbv zeta.
  destruct (order_statuses_eqb_spec (status o) QUEUED) as [Hq|Hq].
  - rewrite (resubmit_queued_run o w Hq). cbn [snd].
    exists ACTIVE. split; [discriminate|].
    now rewrite resubmit_not_queued by (cbn; discriminate).
  - rewrite (resubmit_not_queued o w Hq). cbn [snd].
    exists (status o). split; [exact Hq|].
    now apply resubmit_not_queued.
Qed.

(** ** Identifiers along a run *)

Lemma perform_keeps_id_issued (op : operation) (o : Order) (w : World) :
  In (id o) (uuids_issued w) ->
  In (id (self_of (perform op (o, w))))
     (uuids_issued (world_of (perform op (o, w)))) /\
  incl (uuids_issued w) (uuids_issued (world_of (perform op (o, w)))).
Proof.
  intros Hin. rewrite perform_self, perform_uuids.
  destruct op as [| |silent source|silent|silent]; cbn [record_after].
  - split; [exact Hin|apply incl_refl].
  - destruct (is_queued o); cbn.
    + split; [now left|apply incl_tl, incl_refl].
    + split; [exact Hin|apply incl_refl].
  - destruct (terminal (status o) || (String.eqb source "stream" && is_queued o));
      (split; [exact Hin|apply incl_refl]).
  - destruct (terminal (status o)); (split; [exact Hin|apply incl_refl]).
  - split; [exact Hin|apply incl_refl].
Qed.

(** X9: if the id of the order is among the ids issued, it stays so along
    any sequence of operations, and no issued id is ever forgotten. *)
Theorem id_stays_issued (ops : list operation) (o : Order) (w : World) :
  In (id o) (uuids_issued w) ->
  In (id (fst (run_ops ops (o, w)))) (uuids_issued (snd (run_ops ops (o, w)))) /\
  incl (uuids_issued w) (uuids_issued (snd (run_ops ops (o, w)))).
Proof.
  revert o w. induction ops as [|op ops IH]; intros o w Hin.
  - split; [exact Hin|apply incl_refl].
  - cbn [run_ops].
    destruct (perform_keeps_id_issued op o w Hin) as [Hin' Hincl].
    unfold self_of, world_of in Hin', Hincl.
    destruct (snd (perform op (o, w))) as [o' w']. cbn [fst snd] in Hin', Hincl.
    destruct (IH o' w' Hin') as [H1 H2].
    split; [exact H1|].
    intros x Hx. apply H2, Hincl, Hx.
Qed.

Lemma id_stays_issued_witness :
  let o := sample_order QUEUED in
  let w := loud_world 5 in
  let s := run_ops [Resubmit; Queue; Resubmit] (o, w) in
  In (id o) (uuids_issued w) /\
  id (fst s) = 9%N /\ uuids_issued (snd s) = [9%N; 8%N; 7%N] /\
  In (id (fst s)) (uuids_issued (snd s)).
Proof.
  exact (conj (or_introl eq_refl)
           (conj eq_refl
              (conj eq_refl
                 (proj1 (id_stays_issued [Resubmit; Queue; Resubmit]
                           (sample_order QUEUED) (loud_world 5)
                           (or_introl eq_refl)))))).
Defined.

(** X10: the id of the record changes only in a [resubmit] of a queued
    order; every other call, a refused [resubmit] included, keeps it. *)
Theorem id_changes_only_on_resubmit (op : operation) (o : Order) (w : World) :
  id (self_of (perform op (o, w))) <> id o ->
  op = Resubmit /\ status o = QUEUED.
Proof.
  rewrite perform_self.
  destruct op as [| |silent source|silent|silent]; cbn [record_after].
  - cbn. congruence.
  - destruct (is_queued o) eqn:Hq; [|congruence].
    intros _. split; [reflexivity|now apply is_queued_iff].
  - destruct (terminal (status o) || (String.eqb source "stream" && is_queued o));
      cbn; congruence.
  - destruct (terminal (status o)); cbn; congruence.
  - cbn. congruence.
Qed.

Lemma id_changes_only_on_resubmit_witness :
  let o := sample_order QUEUED in
  let w := loud_world 5 in
  id (self_of (perform Resubmit (o, w))) <> id o /\
  Resubmit = Resubmit /\ status o = QUEUED.
Proof.
  assert (H : id (self_of (perform Resubmit (sample_order QUEUED, loud_world 5)))
              <> id (sample_order QUEUED)) by (vm_compute; discriminate).
  exact (conj H (id_changes_only_on_resubmit Resubmit (sample_order QUEUED)
                   (loud_world 5) H)).
Defined.

(** ** What no sequence of operations changes *)

Lemma record_after_keeps_terms op now ids (o : Order) :
  same_terms o (record_after op now ids o) /\
  (executed_at o <> None -> executed_at (record_after op now ids o) <> None).
Proof.
  unfold same_terms.
  destruct op as [| |silent source|silent|silent]; cbn [record_after].
  - cbn. now repeat split.
  - destruct (is_queued o); cbn; now repeat split.
  - destruct (terminal (status o) || (String.eqb source "stream" && is_queued o));
      cbn; now repeat split.
  - destruct (terminal (status o)); cbn; repeat split; congruence.
  - cbn. repeat split; congruence.
Qed.

(** X11: no sequence of lifecycle operations changes the symbol, exchange,
    side, type, quantity, filled quantity, price, creation time, trade id,
    session id, exchange id, vars, reduce-only flag or submission tag of
    an order. *)
Theorem reachable_keeps_terms (o0 o : Order) :
  reachable o0 o -> same_terms o0 o.
Proof.
  intros Hr. induction Hr as [|o w op Hr IH].
  - unfold same_terms. now repeat split.
  - rewrite perform_self.
    destruct (record_after_keeps_terms op (time w) (uuids_issued w) o)
      as [Hstep _].
    unfold same_terms in *.
    repeat match goal with H : _ /\ _ |- _ => destruct H end.
    repeat split; congruence.
Qed.

Lemma reachable_keeps_terms_witness :
  let o0 := sample_order QUEUED in
  let o := fst (run_ops [Resubmit; ExecutePartially false; Cancel false ""]
                  (o0, loud_world 5)) in
  reachable o0 o /\ status o = CANCELED /\ same_terms o0 o.
Proof.
  assert (Hr : reachable (sample_order QUEUED)
                 (fst (run_ops
                         [Resubmit; ExecutePartially false; Cancel false ""]
                         (sample_order QUEUED, loud_world 5))))
    by (apply run_ops_reachable, reach_start).
  exact (conj Hr (conj eq_refl (reachable_keeps_terms _ _ Hr))).
Defined.

(** X12: executed-at is never cleared: once an order has an execution
    time, it has one after any sequence of operations, whatever its status
    becomes. *)
Theorem executed_at_never_cleared (o0 o : Order) :
  reachable o0 o -> executed_at o0 <> None -> executed_at o <> None.
Proof.
  intros Hr H0. induction Hr as [|o w op Hr IH].
  - exact H0.
  - rewrite perform_self.
    now apply record_after_keeps_terms.
Qed.

Lemma executed_at_never_cleared_witness :
  let o0 := set_executed_at (Some 4) (sample_order PARTIALLY_FILLED) in
  let o := fst (run_ops [Cancel false ""; Queue; Resubmit]
                  (o0, loud_world 5)) in
  (reachable o0 o /\ executed_at o0 <> None) /\
  status o = ACTIVE /\ executed_at o <> None.
Proof.
  assert (Hr : reachable (set_executed_at (Some 4) (sample_order PARTIALLY_FILLED))
                 (fst (run_ops [Cancel false ""; Queue; Resubmit]
                         (set_executed_at (Some 4)
                            (sample_order PARTIALLY_FILLED), loud_world 5))))
    by (apply run_ops_reachable, reach_start).
  assert (H0 : executed_at (set_executed_at (Some 4)
                              (sample_order PARTIALLY_FILLED)) <> None)
    by discriminate.
  exact (conj (conj Hr H0)
           (conj eq_refl (executed_at_never_cleared _ _ Hr H0))).
Defined.

(** ** Cancellation and execution *)

Lemma guard_false_iff (source : string) (o : Order) :
  String.eqb source "stream" && is_queued o = false <->
  source <> "stream" \/ status o <> QUEUED.
Proof.
  rewrite andb_false_iff. split; intros [H|H].
  - left. now apply String.eqb_neq.
  - right. intros Hq. apply is_queued_iff in Hq. congruence.
  - left. now apply String.eqb_neq.
  - right. destruct (is_queued o) eqn:Hq; [|reflexivity].
    apply is_queued_iff in Hq. contradiction.
Qed.

(** X13: [cancel] on an order that is not terminal, unless it is a queued
    order cancelled from the stream: it returns normally with status
    Canceled and canceled-at the current time, keeps executed-at and every
    other field, and after the logging and notification makes exactly one
    call, on the accounting collaborator, with the updated record. *)
Theorem cancel_effect (silent : bool) (source : string) (o : Order) (w : World) :
  terminal (status o) = false ->
  source <> "stream" \/ status o <> QUEUED ->
  let r := cancel silent source (o, w) in
  let o' := set_status CANCELED (set_canceled_at (Some (time w)) o) in
  result_of r = inr tt /\ self_of r = o' /\
  executed_at (self_of r) = executed_at o /\
  trace (world_of r) =
    trace w ++
    notes silent "order_cancellation" "cancelled_orders"
      (order_txt "CANCELED order" (symbol o) (type o) (side o) (qty o)
         (price_if_truthy o)) w ++
    [on_order_cancellation (exchange o) o'].
Proof.
  intros Ht Hg r o'. subst r o'. apply guard_false_iff in Hg.
  destruct (cancel_self silent source o w Ht Hg) as [Hres Hself].
  pose proof (cancel_trace silent source o w Ht Hg) as Htr. cbv zeta in Htr.
  rewrite Hres, Hself. repeat split. exact Htr.
Qed.

Lemma cancel_effect_witness :
  let o := sample_order QUEUED in
  let r := cancel true "" (o, loud_world 5) in
  (terminal (status o) = false /\ ("" <> "stream" \/ status o <> QUEUED)) /\
  status (self_of r) = CANCELED /\
  trace (world_of r) =
    [on_order_cancellation "Binance"
       (set_status CANCELED (set_canceled_at (Some 5) o))].
Proof.
  assert (Hg : "" <> "stream" \/ status (sample_order QUEUED) <> QUEUED)
    by (left; discriminate).
  pose proof (cancel_effect true "" (sample_order QUEUED) (loud_world 5)
                eq_refl Hg) as (_ & _ & _ & Htr).
  exact (conj (conj eq_refl Hg) (conj eq_refl Htr)).
Defined.

(** X14: [execute] on an order that is not terminal returns normally with
    status Executed and executed-at the current time, keeps canceled-at
    and every other field; unless silent it logs when order execution is
    debuggable and notifies in live mode when executed-order events are
    enabled, both before the calls on the collaborators. *)
Theorem execute_effect (silent : bool) (o : Order) (w : World) :
  terminal (status o) = false ->
  let r := execute silent (o, w) in
  let o' := set_status EXECUTED (set_executed_at (Some (time w)) o) in
  result_of r = inr tt /\ self_of r = o' /\
  canceled_at (self_of r) = canceled_at o /\
  trace (world_of r) =
    trace w ++
    notes silent "order_execution" "executed_orders"
      (order_txt "EXECUTED order" (symbol o) (type o) (side o) (qty o)
         (price_if_truthy o)) w ++
    [add_executed_order o'; on_order_execution (exchange o) o'] ++
    position_call w o'.
Proof.
  intros Ht r o'. subst r o'.
  destruct (execute_self silent o w Ht) as [Hres Hself].
  pose proof (execute_trace silent o w Ht) as Htr. cbv zeta in Htr.
  rewrite Hres, Hself. repeat split. exact Htr.
Qed.

Lemma execute_effect_witness :
  let o := sample_order PARTIALLY_FILLED in
  let r := execute false (o, quiet_world 5) in
  let o' := set_status EXECUTED (set_executed_at (Some 5) o) in
  terminal (status o) = false /\
  self_of r = o' /\
  trace (world_of r) =
    [add_executed_order o'; on_order_execution "Binance" o'].
Proof.
  pose proof (execute_effect false (sample_order PARTIALLY_FILLED)
                (quiet_world 5) eq_refl) as (_ & Hself & _ & Htr).
  exact (conj eq_refl (conj Hself Htr)).
Defined.



(** X16: [execute_partially] has no guard: from any status, Executed and
    Canceled included, it returns normally, sets status PartiallyFilled and
    overwrites executed-at with the current time, keeps canceled-at and
    every other field, and calls the trade ledger once, then the position
    when there is one; the accounting collaborator is not called. *)
Theorem execute_partially_from_any_status (silent : bool) (o : Order) (w : World) :
  let r := execute_partially silent (o, w) in
  let o' := set_status PARTIALLY_FILLED (set_executed_at (Some (time w)) o) in
  result_of r = inr tt /\ self_of r = o' /\
  canceled_at (self_of r) = canceled_at o /\
  exists l, trace (world_of r) = trace w ++ l /\
    port_calls l = [add_executed_order o'] ++ position_call w o'.
Proof.
  cbv zeta.
  destruct (execute_partially_self silent o w) as [Hres Hself].
  pose proof (execute_partially_trace silent o w) as Htr. cbv zeta in Htr.
  rewrite Hres, Hself. repeat split.
  eexists. split; [exact Htr|].
  rewrite port_calls_app, port_calls_notes.
  unfold position_call. cbn [exchange symbol set_status set_executed_at app].
  destruct (positions w (exchange o) (symbol o)); reflexivity.
Qed.

(** ** The silent argument *)

Lemma perform_port_calls_silent (b : bool) (op : operation) (o : Order) (w : World) :
  port_calls (trace (world_of (perform (with_silent b op) (o, w)))) =
  port_calls (trace (world_of (perform op (o, w)))).
Proof.
  destruct op as [| |silent source|silent|silent];
    cbn [with_silent perform]; try reflexivity.
  - destruct (terminal (status o)) eqn:Ht.
    + now rewrite !cancel_noop_terminal.
    + destruct (String.eqb source "stream" && is_queued o) eqn:Hg.
      * apply andb_prop in Hg as [Hs Hq].
        apply String.eqb_eq in Hs; subst source.
        apply is_queued_iff in Hq.
        now rewrite !cancel_noop_stream_queued.
      * rewrite !cancel_trace by assumption.
        now rewrite !port_calls_app, !port_calls_notes.
  - destruct (terminal (status o)) eqn:Ht.
    + now rewrite !execute_noop_terminal.
    + rewrite !execute_trace by assumption.
      now rewrite !port_calls_app, !port_calls_notes.
  - rewrite !execute_partially_trace.
    now rewrite !port_calls_app, !port_calls_notes.
Qed.

(** X17: the [silent] argument of [cancel], [execute] and
    [execute_partially] affects nothing but logging and notification: the
    record left, the result and the calls on the accounting, ledger and
    position collaborators are the same with either value, and with
    [silent] true the logger and the notifier are not called at all. *)
Theorem silent_only_mutes_notes (b : bool) (op : operation) (o : Order) (w : World) :
  self_of (perform (with_silent b op) (o, w)) = self_of (perform op (o, w)) /\
  result_of (perform (with_silent b op) (o, w)) = result_of (perform op (o, w)) /\
  port_calls (trace (world_of (perform (with_silent b op) (o, w)))) =
    port_calls (trace (world_of (perform op (o, w)))) /\
  (op <> Queue -> op <> Resubmit ->
   exists l, trace (world_of (perform (with_silent true op) (o, w))) =
               trace w ++ l /\ port_calls l = l).
Proof.
  split; [|split; [|split]].
  - rewrite !perform_self.
    destruct op; reflexivity.
  - destruct op as [| |silent source|silent|silent]; cbn [with_silent];
      try reflexivity; now rewrite !perform_result_other by discriminate.
  - apply perform_port_calls_silent.
  - intros Hq Hr.
    destruct op as [| |silent source|silent|silent];
      cbn [with_silent perform]; try contradiction.
    + destruct (terminal (status o)) eqn:Ht.
      * rewrite cancel_noop_terminal by assumption.
        exists []. split; [now rewrite app_nil_r|reflexivity].
      * destruct (String.eqb source "stream" && is_queued o) eqn:Hg.
        -- apply andb_prop in Hg as [Hs Hq'].
           apply String.eqb_eq in Hs; subst source.
           apply is_queued_iff in Hq'.
           rewrite cancel_noop_stream_queued by assumption.
           exists []. split; [now rewrite app_nil_r|reflexivity].
        -- rewrite cancel_trace by assumption.
           eexists. split; reflexivity.
    + destruct (terminal (status o)) eqn:Ht.
      * rewrite execute_noop_terminal by assumption.
        exists []. split; [now rewrite app_nil_r|reflexivity].
      * rewrite execute_trace by assumption. cbn [notes app].
        eexists. split; [reflexivity|].
        unfold position_call.
        destruct (positions w _ _); reflexivity.
    + rewrite execute_partially_trace. cbn [notes app].
      eexists. split; [reflexivity|].
      unfold position_call.
      destruct (positions w _ _); reflexivity.
Qed.

Lemma silent_only_mutes_notes_witness :
  let o := sample_order ACTIVE in
  let w := loud_world 5 in
  (Execute false <> Queue /\ Execute false <> Resubmit) /\
  self_of (perform (Execute true) (o, w)) =
    self_of (perform (Execute false) (o, w)) /\
  exists l, trace (world_of (perform (Execute true) (o, w))) = trace w ++ l /\
            port_calls l = l.
Proof.
  assert (H1 : Execute false <> Queue) by discriminate.
  assert (H2 : Execute false <> Resubmit) by discriminate.
  pose proof (silent_only_mutes_notes true (Execute false)
                (sample_order ACTIVE) (loud_world 5)) as (Hs & _ & _ & Hl).
  exact (conj (conj H1 H2) (conj Hs (Hl H1 H2))).
Defined.

(** ** The dictionary view *)

Lemma py_option_inj {A} (f : A -> PyValue) (x y : option A) :
  (forall a b, f a = f b -> a = b) -> (forall a, f a <> PyNone) ->
  py_option f x = py_option f y -> x = y.
Proof.
  intros Hinj Hnone. destruct x as [a|], y as [b|]; cbn; intros H.
  - f_equal. now apply Hinj.
  - now apply Hnone in H.
  - symmetry in H. now apply Hnone in H.
  - reflexivity.
Qed.

(** X18: [to_dict] has thirteen distinct keys, and two orders have the
    same dictionary exactly when they agree on id, session id, exchange
    id, symbol, side, type, quantity, filled quantity, price, status and
    the three timestamps; the exchange, trade id, vars, reduce-only flag
    and submission tag do not show in it. *)
Theorem to_dict_exposes (o o' : Order) :
  NoDup (map fst (to_dict o)) /\
  (to_dict o = to_dict o' <->
   id o = id o' /\ session_id o = session_id o' /\
   exchange_id o = exchange_id o' /\ symbol o = symbol o' /\
   side o = side o' /\ type o = type o' /\ qty o = qty o' /\
   filled_qty o = filled_qty o' /\ price o = price o' /\
   status o = status o' /\ created_at o = created_at o' /\
   canceled_at o = canceled_at o' /\ executed_at o = executed_at o').
Proof.
  split.
  - cbn. repeat constructor; cbn; intuition discriminate.
  - unfold to_dict. split.
    + intros H.
      injection H as Hid Hse Hex Hsy Hsd Hty Hq Hfq Hp Hst Hcr Hca Hexe.
      repeat split; try assumption;
        apply py_option_inj with (f := PyStr) || apply py_option_inj with (f := PyFloat)
        || apply py_option_inj with (f := PyInt);
        solve [assumption | congruence | discriminate].
    + intros (-> & -> & -> & -> & -> & -> & -> & -> & -> & -> & -> & -> & ->).
      reflexivity.
Qed.
